(** * Hangman turn resolution: [make_guess] in its three styles

    A shallow embedding of [control-flow/hangman]: the [Game] record of
    [hangman.py] and the three implementations of [make_guess] found in
    [impl/nested.py], [impl/indexed.py] and [impl/indexed_fns.py].

    Python values are modelled as follows:
    - [str] (the state tag and the letters) as [string];
    - [set] as [gset string]; its equality is extensional, like [==] on
      Python sets;
    - [int] as [Z] (Python integers are unbounded);
    - [NamedTuple._replace] as a record copy with the named fields changed. *)

From stdpp Require Import base strings gmap.
From Stdlib Require Import ZArith Lia.

Local Open Scope string_scope.
Local Open Scope Z_scope.

(** ** hangman.py *)

Record Game := mkGame {
  state : string;
  guessed : gset string;
  letters : gset string;
  guesses_left : Z
}.

(** [game._replace(state = s)] and its siblings. *)
Definition replace_state (s : string) (game : Game) : Game :=
  mkGame s (guessed game) (letters game) (guesses_left game).

Definition replace_guessed (gs : gset string) (game : Game) : Game :=
  mkGame (state game) gs (letters game) (guesses_left game).

Definition replace_guesses_left (n : Z) (game : Game) : Game :=
  mkGame (state game) (guessed game) (letters game) n.

(** [x in [a, b, ...]] on a Python list of strings. *)
Definition py_in_list (x : string) (l : list string) : bool :=
  existsb (String.eqb x) l.

(** [x in s] and [s.issubset(t)] on Python sets. *)
Definition py_in (x : string) (s : gset string) : bool :=
  bool_decide (x ∈ s).

Definition issubset (s t : gset string) : bool :=
  bool_decide (s ⊆ t).

(** [s.union({ x })]. *)
Definition union1 (s : gset string) (x : string) : gset string :=
  s ∪ {[ x ]}.

(** ** impl/nested.py *)
Module nested.

Definition maybe_won (game : Game) : Game :=
  if issubset (letters game) (guessed game)
  then replace_state "won" game
  else replace_state "good_guess" game.

Definition score_guess (game : Game) (guess : string) : Game :=
  if py_in guess (letters game)
  then maybe_won game
  else
    if (guesses_left game =? 1)
    then replace_state "lost" (replace_guesses_left 0 game)
    else replace_state "bad_guess"
           (replace_guesses_left (guesses_left game - 1) game).

Definition accept_guess (game : Game) (guess : string) : Game :=
  if py_in guess (guessed game)
  then replace_state "already_guessed" game
  else
    let game := replace_guessed (union1 (guessed game) guess) game in
    score_guess game guess.

Definition make_guess (game : Game) (guess : string) : Game :=
  if negb (py_in_list (state game) ["won"; "lost"])
  then accept_guess game guess
  else game.

End nested.

(** ** impl/indexed.py *)
Module indexed.

Definition is_game_already_over (game : Game) : bool :=
  py_in_list (state game) ["won"; "lost"].

Definition is_already_guessed (game : Game) (guess : string) : bool :=
  py_in guess (guessed game).

Definition is_winning_guess (game : Game) (guess : string) : bool :=
  issubset (letters game) (union1 (guessed game) guess).

Definition is_losing_guess (game : Game) (guess : string) : bool :=
  negb (py_in guess (letters game)) && (guesses_left game =? 1).

Definition is_good_guess (game : Game) (guess : string) : bool :=
  py_in guess (letters game).

Definition make_guess (game : Game) (guess : string) : Game :=
  if is_game_already_over game then game
  else if is_already_guessed game guess then
    replace_state "already_guessed" game
  else if is_winning_guess game guess then
    replace_state "won"
      (replace_guessed (union1 (guessed game) guess) game)
  else if is_losing_guess game guess then
    replace_state "lost"
      (replace_guessed (union1 (guessed game) guess)
         (replace_guesses_left 0 game))
  else if is_good_guess game guess then
    replace_state "good_guess"
      (replace_guessed (union1 (guessed game) guess) game)
  else
    replace_state "bad_guess"
      (replace_guessed (union1 (guessed game) guess)
         (replace_guesses_left (guesses_left game - 1) game)).

End indexed.

(** ** impl/indexed_fns.py *)
Module indexed_fns.

(** Predicates *)

Definition is_game_already_over (game : Game) : bool :=
  py_in_list (state game) ["won"; "lost"].

Definition is_already_guessed (game : Game) (guess : string) : bool :=
  py_in guess (guessed game).

Definition is_winning_guess (game : Game) (guess : string) : bool :=
  issubset (letters game) (union1 (guessed game) guess).

Definition is_losing_guess (game : Game) (guess : string) : bool :=
  negb (py_in guess (letters game)) && (guesses_left game =? 1).

Definition is_good_guess (game : Game) (guess : string) : bool :=
  py_in guess (letters game).

(** Consequents *)

Definition already_guessed (game : Game) : Game :=
  replace_state "already_guessed" game.

Definition win (game : Game) (guess : string) : Game :=
  replace_state "won"
    (replace_guessed (union1 (guessed game) guess) game).

Definition lose (game : Game) (guess : string) : Game :=
  replace_state "lost"
    (replace_guessed (union1 (guessed game) guess)
       (replace_guesses_left 0 game)).

Definition good_guess (game : Game) (guess : string) : Game :=
  replace_state "good_guess"
    (replace_guessed (union1 (guessed game) guess) game).

Definition bad_guess (game : Game) (guess : string) : Game :=
  replace_state "bad_guess"
    (replace_guessed (union1 (guessed game) guess)
       (replace_guesses_left (guesses_left game - 1) game)).

Definition make_guess (game : Game) (guess : string) : Game :=
  if is_game_already_over game then game
  else if is_already_guessed game guess then already_guessed game
  else if is_winning_guess game guess then win game guess
  else if is_losing_guess game guess then lose game guess
  else if is_good_guess game guess then good_guess game guess
  else bad_guess game guess.

End indexed_fns.

(** ** hangman_test.py *)

(** The [subject] fixture runs every test against the three modules. *)
Definition all_impls (P : (Game → string → Game) → Prop) : Prop :=
  P nested.make_guess ∧ P indexed.make_guess ∧ P indexed_fns.make_guess.

(** [create_game()] with no keyword argument. *)
Definition create_game : Game := mkGame "" ∅ ∅ 1.

(** ** Vocabulary of the specification *)

(** A game is terminal when its state tag is [won] or [lost]. *)
Definition terminal (game : Game) : Prop :=
  state game = "won" ∨ state game = "lost".


(** A live game, a fresh letter that is not a secret letter, and a
    [guessed] set that covers [letters] once the letter is added. *)
Definition wrong_letter_on_covered_word (game : Game) (guess : string)
  : Prop :=
  ¬ terminal game
  ∧ (guess ∉ guessed game)
  ∧ (guess ∉ letters game)
  ∧ letters game ⊆ guessed game ∪ {[guess]}.

(** A game with no guess left whose state is not yet [lost]. *)
Definition stalled_game : Game := mkGame "" ∅ {["a"]} 0.

(** A round on the word [abc] in which [a] was just guessed right. *)
Definition after_good_guess : Game :=
  mkGame "good_guess" {["a"]} {["a"; "b"; "c"]} 3.

(** A game whose fields tell one story: [won] only with the word covered
    and a guess to spare, [lost] only with no guess left and the word not
    covered, and otherwise at least one guess left and the word not covered
    yet. A driver that starts from a non-empty word, an empty [guessed] set
    and a positive count starts from such a game. *)
Definition consistent (game : Game) : Prop :=
  (state game = "won" →
   1 ≤ guesses_left game ∧ letters game ⊆ guessed game)
  ∧ (state game = "lost" →
     guesses_left game = 0 ∧ ¬ letters game ⊆ guessed game)
  ∧ (¬ terminal game →
     1 ≤ guesses_left game ∧ ¬ letters game ⊆ guessed game).

(** A fresh round on the word [ab] with three guesses. *)
Definition fresh_round : Game := mkGame "" ∅ {["a"; "b"]} 3.

(** ** Proof automation *)

(** Unfold one implementation down to its tests and record copies. *)
Ltac unfold_nested :=
  unfold nested.make_guess, nested.accept_guess, nested.score_guess,
    nested.maybe_won.

Ltac unfold_indexed :=
  unfold indexed.make_guess, indexed.is_game_already_over,
    indexed.is_already_guessed, indexed.is_winning_guess,
    indexed.is_losing_guess, indexed.is_good_guess.

Ltac unfold_indexed_fns :=
  unfold indexed_fns.make_guess, indexed_fns.is_game_already_over,
    indexed_fns.is_already_guessed, indexed_fns.is_winning_guess,
    indexed_fns.is_losing_guess, indexed_fns.is_good_guess,
    indexed_fns.already_guessed, indexed_fns.win, indexed_fns.lose,
    indexed_fns.good_guess, indexed_fns.bad_guess.

Ltac unfold_replace :=
  unfold replace_state, replace_guessed, replace_guesses_left, union1,
    py_in, issubset;
  cbn [state guessed letters guesses_left].

(** Split on every test a branch of [make_guess] performs, keeping each
    outcome as a fact about the game. *)
Ltac split_tests :=
  repeat (match goal with
  | |- context [py_in_list (state ?g) ?l] =>
      let E := fresh "Hover" in
      destruct (py_in_list (state g) l) eqn:E
  | |- context [bool_decide ?P] =>
      destruct (bool_decide_reflect P)
  | |- context [Z.eqb ?a ?b] =>
      destruct (Z.eqb_spec a b)
  end; cbn [state guessed letters guesses_left negb andb]).

(** Close one branch of the guess-count analysis: every conjunct is
    arithmetic on the count, a fact recorded by the tests taken, or an
    impossible equation between tags. *)
Ltac guess_count_leaf :=
  repeat split; intros;
  try lia; try assumption;
  try (left; reflexivity); try (right; lia);
  try discriminate; try contradiction; try congruence.

(** Decide an equivalence between two tag equations and the tests that
    were taken. *)
Ltac outcome_leaf :=
  unfold terminal in *;
  intuition (try discriminate; try congruence).

(** * Basic facts about the embedding *)

Lemma py_in_list_over (s : string) :
  py_in_list s ["won"; "lost"] = true ↔ s = "won" ∨ s = "lost".
Proof.
  unfold py_in_list; simpl.
  rewrite orb_false_r, orb_true_iff, !String.eqb_eq. reflexivity.
Qed.

Lemma over_terminal (game : Game) :
  terminal game → py_in_list (state game) ["won"; "lost"] = true.
Proof. intros H. apply py_in_list_over, H. Qed.

Lemma over_not_terminal (game : Game) :
  ¬ terminal game → py_in_list (state game) ["won"; "lost"] = false.
Proof.
  intros H. apply not_true_is_false. intros E. apply H, py_in_list_over, E.
Qed.

Lemma not_over_inv (game : Game) :
  py_in_list (state game) ["won"; "lost"] = false → ¬ terminal game.
Proof.
  intros E H. apply over_terminal in H. congruence.
Qed.

Lemma py_in_true (x : string) (s : gset string) : x ∈ s → py_in x s = true.
Proof. apply bool_decide_eq_true_2. Qed.

(** X13. The named-function variant is the flat variant with its branches
    given names: on every Game and letter [indexed_fns.make_guess] and
    [indexed.make_guess] return the same Game. *)
Lemma indexed_fns_is_indexed (game : Game) (guess : string) :
  indexed_fns.make_guess game guess = indexed.make_guess game guess.
Proof. reflexivity. Qed.

(** * The test scenarios of hangman_test.py, on each implementation *)

Example test_already_won :
  all_impls (λ make_guess,
    let given := mkGame "won" ∅ ∅ 1 in make_guess given "m" = given).
Proof. repeat split. Qed.

Example test_already_lost :
  all_impls (λ make_guess,
    let given := mkGame "lost" ∅ ∅ 1 in make_guess given "m" = given).
Proof. repeat split. Qed.

Example test_already_guessed :
  all_impls (λ make_guess,
    make_guess (mkGame "" {["a"]} ∅ 1) "a"
    = mkGame "already_guessed" {["a"]} ∅ 1).
Proof. repeat split; vm_compute; reflexivity. Qed.

Example test_winning_guess :
  all_impls (λ make_guess,
    make_guess (mkGame "" ∅ {["a"]} 1) "a" = mkGame "won" {["a"]} {["a"]} 1).
Proof. repeat split; vm_compute; reflexivity. Qed.

Example test_losing_guess :
  all_impls (λ make_guess,
    make_guess (mkGame "" ∅ {["a"]} 1) "b" = mkGame "lost" {["b"]} {["a"]} 0).
Proof. repeat split; vm_compute; reflexivity. Qed.

Example test_bad_guess :
  all_impls (λ make_guess,
    make_guess (mkGame "" ∅ {["a"]} 3) "b"
    = mkGame "bad_guess" {["b"]} {["a"]} 2).
Proof. repeat split; vm_compute; reflexivity. Qed.

Example test_good_guess :
  all_impls (λ make_guess,
    make_guess (mkGame "" ∅ {["a"; "b"]} 1) "a"
    = mkGame "good_guess" {["a"]} {["a"; "b"]} 1).
Proof. repeat split; vm_compute; reflexivity. Qed.

(** * Properties of the transition *)

(** ** Rule 1: terminal guard *)

(** C5. For every Game whose state is [won] or [lost] and every letter,
    each implementation of [make_guess] returns its argument: the result
    is equal to the input in every field. *)
Theorem terminal_absorbing (game : Game) (guess : string) :
  terminal game →
  all_impls (λ make_guess, make_guess game guess = game).
Proof.
  intros Hterm. apply over_terminal in Hterm.
  repeat split.
  - unfold_nested. rewrite Hterm. reflexivity.
  - unfold_indexed. rewrite Hterm. reflexivity.
  - unfold_indexed_fns. rewrite Hterm. reflexivity.
Qed.

Lemma terminal_absorbing_witness :
  all_impls (λ make_guess,
    make_guess (mkGame "lost" {["b"]} {["a"]} 0) "m"
    = mkGame "lost" {["b"]} {["a"]} 0).
Proof.
  refine (terminal_absorbing (mkGame "lost" {["b"]} {["a"]} 0) "m" _).
  right. reflexivity.
Defined.

(** ** Rule 2: repeat guess *)

(** C6. For every Game that is not terminal and every letter already in
    [guessed], each implementation returns the input with
    [state = already_guessed]; [guessed], [letters] and [guesses_left] are
    the input's (the letter is not added a second time). *)
Theorem repeat_guess_frame (game : Game) (guess : string) :
  ¬ terminal game →
  guess ∈ guessed game →
  all_impls (λ make_guess,
    make_guess game guess
    = mkGame "already_guessed" (guessed game) (letters game)
        (guesses_left game)).
Proof.
  intros Hlive Hin.
  apply over_not_terminal in Hlive. apply py_in_true in Hin.
  repeat split.
  - unfold_nested. rewrite Hlive; cbn [negb]. rewrite Hin. reflexivity.
  - unfold_indexed. rewrite Hlive, Hin. reflexivity.
  - unfold_indexed_fns. rewrite Hlive, Hin. reflexivity.
Qed.

Lemma repeat_guess_frame_witness :
  all_impls (λ make_guess,
    make_guess (mkGame "" {["a"]} ∅ 1) "a"
    = mkGame "already_guessed" {["a"]} ∅ 1).
Proof.
  refine (repeat_guess_frame (mkGame "" {["a"]} ∅ 1) "a" _ _).
  - unfold terminal; simpl. intros [H | H]; discriminate H.
  - simpl. apply elem_of_singleton. reflexivity.
Defined.

(** ** Frame and monotonicity *)

(** C8. For every Game and every letter, the [letters] field of the result
    is the input's [letters], in each of the three implementations. *)
Theorem letters_unchanged (game : Game) (guess : string) :
  all_impls (λ make_guess, letters (make_guess game guess) = letters game).
Proof.
  repeat split.
  - unfold_nested. unfold_replace. split_tests; reflexivity.
  - unfold_indexed. unfold_replace. split_tests; reflexivity.
  - unfold_indexed_fns. unfold_replace. split_tests; reflexivity.
Qed.

(** C7. For every Game and every letter, the [guessed] set of the result
    includes the input's [guessed] set, and [guesses_left] of the result is
    at most the input's [guesses_left]. *)
Theorem guessed_grows_guesses_left_shrinks (game : Game) (guess : string) :
  all_impls (λ make_guess,
    guessed game ⊆ guessed (make_guess game guess)
    ∧ guesses_left (make_guess game guess) ≤ guesses_left game).
Proof.
  repeat split.
  - unfold_nested. unfold_replace. split_tests; set_solver.
  - unfold_nested. unfold_replace. split_tests; lia.
  - unfold_indexed. unfold_replace. split_tests; set_solver.
  - unfold_indexed. unfold_replace. split_tests; lia.
  - unfold_indexed_fns. unfold_replace. split_tests; set_solver.
  - unfold_indexed_fns. unfold_replace. split_tests; lia.
Qed.

(** ** The state tag after a transition *)

Example after_good_guess_second_letter :
  all_impls (λ make_guess,
    make_guess after_good_guess "b"
    = mkGame "good_guess" {["a"; "b"]} {["a"; "b"; "c"]} 3).
Proof. repeat split; vm_compute; reflexivity. Qed.




(** ** Rule 4: losing guess *)

(** C4. For every Game that is not terminal and every letter that is
    neither in [guessed] nor in [letters], when [letters] is not included
    in [guessed ∪ {guess}] and [guesses_left] is 1, each implementation
    returns [state = lost], [guessed = guessed ∪ {guess}],
    [guesses_left = 0] and the same [letters]. *)
Theorem losing_guess (game : Game) (guess : string) :
  ¬ terminal game →
  guess ∉ guessed game →
  guess ∉ letters game →
  ¬ letters game ⊆ guessed game ∪ {[guess]} →
  guesses_left game = 1 →
  all_impls (λ make_guess,
    make_guess game guess
    = mkGame "lost" (guessed game ∪ {[guess]}) (letters game) 0).
Proof.
  intros Hlive Hnew Hwrong Hopen Hone.
  apply over_not_terminal in Hlive.
  split; [| split].
  - unfold_nested. rewrite Hlive; cbn [negb]. unfold_replace.
    split_tests; try contradiction. reflexivity.
  - unfold_indexed. rewrite Hlive. unfold_replace.
    split_tests; try contradiction. reflexivity.
  - unfold_indexed_fns. rewrite Hlive. unfold_replace.
    split_tests; try contradiction. reflexivity.
Qed.

Lemma losing_guess_witness :
  all_impls (λ make_guess,
    make_guess (mkGame "" ∅ {["a"]} 1) "b"
    = mkGame "lost" (∅ ∪ {["b"]}) {["a"]} 0).
Proof.
  refine (losing_guess (mkGame "" ∅ {["a"]} 1) "b" _ _ _ _ _); simpl.
  - unfold terminal; simpl. intros [H | H]; discriminate H.
  - apply not_elem_of_empty.
  - intros H. apply elem_of_singleton in H. discriminate H.
  - intros H. specialize (H "a"). rewrite elem_of_singleton in H.
    specialize (H eq_refl). apply elem_of_union in H.
    destruct H as [H | H].
    + exact (not_elem_of_empty _ H).
    + apply elem_of_singleton in H. discriminate H.
  - reflexivity.
Defined.

(** ** Rule 3: winning guess *)

(** The flat implementations apply rule 3 as the specification words it:
    for a live game and a fresh letter, [letters ⊆ guessed ∪ {guess}] alone
    decides the win. *)
Lemma winning_guess_indexed (game : Game) (guess : string) :
  ¬ terminal game →
  guess ∉ guessed game →
  letters game ⊆ guessed game ∪ {[guess]} →
  indexed.make_guess game guess
  = mkGame "won" (guessed game ∪ {[guess]}) (letters game)
      (guesses_left game)
  ∧ indexed_fns.make_guess game guess
    = mkGame "won" (guessed game ∪ {[guess]}) (letters game)
        (guesses_left game).
Proof.
  intros Hlive Hnew Hcover.
  apply over_not_terminal in Hlive.
  split; [unfold_indexed | unfold_indexed_fns].
  all: rewrite Hlive; unfold_replace.
  all: split_tests; try contradiction; reflexivity.
Qed.

(** X14. The nested implementation reaches [maybe_won] only under
    [guess in game.letters]: for a live game and a fresh letter of the
    word with [letters ⊆ guessed ∪ {guess}] it returns [won], adds the
    letter and leaves [letters] and [guesses_left] alone. *)
Lemma winning_guess_nested (game : Game) (guess : string) :
  ¬ terminal game →
  guess ∉ guessed game →
  guess ∈ letters game →
  letters game ⊆ guessed game ∪ {[guess]} →
  nested.make_guess game guess
  = mkGame "won" (guessed game ∪ {[guess]}) (letters game)
      (guesses_left game).
Proof.
  intros Hlive Hnew Hright Hcover.
  apply over_not_terminal in Hlive.
  unfold_nested. rewrite Hlive; cbn [negb]. unfold_replace.
  split_tests; try contradiction; reflexivity.
Qed.

(** C9. In [indexed] and [indexed_fns], for every Game with an empty
    [letters] set that is not terminal and every letter not in [guessed],
    [make_guess] returns [state = won] with [guessed = guessed ∪ {guess}]:
    the empty set is included in every set, and the winning test comes
    before the losing, good and bad ones. *)
Theorem empty_letters_win (game : Game) (guess : string) :
  letters game = ∅ →
  ¬ terminal game →
  guess ∉ guessed game →
  (state (indexed.make_guess game guess) = "won"
   ∧ guessed (indexed.make_guess game guess) = guessed game ∪ {[guess]})
  ∧ (state (indexed_fns.make_guess game guess) = "won"
     ∧ guessed (indexed_fns.make_guess game guess)
       = guessed game ∪ {[guess]}).
Proof.
  intros Hempty Hlive Hnew.
  assert (Hcover : letters game ⊆ guessed game ∪ {[guess]}).
  { rewrite Hempty. apply empty_subseteq. }
  destruct (winning_guess_indexed game guess Hlive Hnew Hcover) as [Hi Hf].
  rewrite Hi, Hf. simpl. repeat split.
Qed.

Lemma empty_letters_win_witness :
  (state (indexed.make_guess create_game "m") = "won"
   ∧ guessed (indexed.make_guess create_game "m") = ∅ ∪ {["m"]})
  ∧ (state (indexed_fns.make_guess create_game "m") = "won"
     ∧ guessed (indexed_fns.make_guess create_game "m") = ∅ ∪ {["m"]}).
Proof.
  refine (empty_letters_win create_game "m" _ _ _); simpl.
  - reflexivity.
  - unfold terminal; simpl. intros [H | H]; discriminate H.
  - apply not_elem_of_empty.
Defined.

(** ** Where the nested implementation parts from the flat ones *)

(** X12. [nested] and [indexed] return the same Game exactly when the input
    is not of that shape: there [indexed] takes the winning branch while
    [nested] has already committed to scoring a wrong letter. *)
Lemma nested_indexed_agree_iff (game : Game) (guess : string) :
  nested.make_guess game guess = indexed.make_guess game guess
  ↔ ¬ wrong_letter_on_covered_word game guess.
Proof.
  unfold wrong_letter_on_covered_word.
  unfold_nested. unfold_indexed. unfold_replace.
  destruct (py_in_list (state game) ["won"; "lost"]) eqn:Hover; cbn [negb].
  - apply py_in_list_over in Hover. fold (terminal game) in Hover.
    split; [intros _; tauto | reflexivity].
  - apply not_over_inv in Hover. split_tests.
    all: first
      [ split; [intros _; tauto | reflexivity]
      | split; [intros E; discriminate E | intros Hn; exfalso; tauto] ].
Qed.

(** C1. The claim is that the three implementations return the same Game
    on every input. On the test fixture [create_game()] with the guess
    ["m"] they do not: [nested] scores a wrong letter and returns
    [lost] with no guess left, while [indexed] and [indexed_fns] take the
    winning branch and return [won] with the guess count untouched. *)
Theorem nested_differs_on_fixture :
  nested.make_guess create_game "m" = mkGame "lost" {["m"]} ∅ 0
  ∧ indexed.make_guess create_game "m" = mkGame "won" {["m"]} ∅ 1
  ∧ indexed_fns.make_guess create_game "m" = mkGame "won" {["m"]} ∅ 1
  ∧ nested.make_guess create_game "m" ≠ indexed.make_guess create_game "m".
Proof.
  repeat split; try (vm_compute; reflexivity).
  intros E. apply (f_equal guesses_left) in E. vm_compute in E.
  discriminate E.
Qed.

(** C3. The claim is that a live game and a fresh letter with
    [letters ⊆ guessed ∪ {guess}] give [won] in each implementation, with
    [letters] and [guesses_left] unchanged. The premises hold for the game
    below (the word [a] is covered, [b] is fresh), yet [nested] returns
    [bad_guess] and takes a guess away; the flat implementations return
    [won] as claimed. *)
Theorem nested_misses_winning_rule :
  let game := mkGame "good_guess" {["a"]} {["a"]} 3 in
  (¬ terminal game
   ∧ ("b" ∉ guessed game)
   ∧ letters game ⊆ guessed game ∪ {["b"]})
  ∧ nested.make_guess game "b" = mkGame "bad_guess" {["a"; "b"]} {["a"]} 2
  ∧ indexed.make_guess game "b" = mkGame "won" {["a"; "b"]} {["a"]} 3
  ∧ indexed_fns.make_guess game "b" = mkGame "won" {["a"; "b"]} {["a"]} 3.
Proof.
  cbv zeta. split; [split; [| split] |]; simpl.
  - unfold terminal; simpl. intros [H | H]; discriminate H.
  - intros H. apply elem_of_singleton in H. discriminate H.
  - apply union_subseteq_l.
  - repeat split; vm_compute; reflexivity.
Qed.

(** ** The guess count *)

Example stalled_game_bad_guess :
  all_impls (λ make_guess,
    make_guess stalled_game "b" = mkGame "bad_guess" {["b"]} {["a"]} (-1)).
Proof. repeat split; vm_compute; reflexivity. Qed.

(** C2, as stated, fails: [stalled_game] has [guesses_left = 0 >= 0], yet a
    wrong letter takes the bad-guess branch (the losing test asks for
    [guesses_left == 1]) and the result has [guesses_left = -1], in each
    implementation. *)
Lemma guesses_left_below_zero :
  all_impls (λ make_guess,
    ¬ (0 ≤ guesses_left stalled_game →
       0 ≤ guesses_left (make_guess stalled_game "b"))).
Proof.
  repeat split; intros H.
  all: assert (H0 : 0 ≤ guesses_left stalled_game) by (simpl; lia).
  all: apply H in H0; vm_compute in H0; apply H0; reflexivity.
Qed.

(** C2, amended. For every Game with [guesses_left >= 0], and
    [guesses_left >= 1] unless its state is [won] or [lost], and every
    letter, in each implementation: the result has [guesses_left >= 0];
    [guesses_left] is unchanged or decreased by exactly 1; it changes only
    on an accepted wrong guess (the game is not terminal, the letter is
    neither in [guessed] nor in [letters]); and the bad-guess branch is
    taken only when the letter is not in [letters] and
    [guesses_left > 1]. *)
Theorem guesses_left_bounded (game : Game) (guess : string) :
  0 ≤ guesses_left game →
  (¬ terminal game → 1 ≤ guesses_left game) →
  all_impls (λ make_guess,
    0 ≤ guesses_left (make_guess game guess)
    ∧ (guesses_left (make_guess game guess) = guesses_left game
       ∨ guesses_left (make_guess game guess) = guesses_left game - 1)
    ∧ (guesses_left (make_guess game guess) ≠ guesses_left game →
       ¬ terminal game ∧ (guess ∉ guessed game) ∧ (guess ∉ letters game))
    ∧ (state (make_guess game guess) = "bad_guess" →
       (guess ∉ letters game) ∧ 1 < guesses_left game)).
Proof.
  intros Hnonneg Hlive.
  assert (Hterm : terminal game → state game ≠ "bad_guess").
  { intros [E | E]; rewrite E; discriminate. }
  assert (Hindexed :
    0 ≤ guesses_left (indexed.make_guess game guess)
    ∧ (guesses_left (indexed.make_guess game guess) = guesses_left game
       ∨ guesses_left (indexed.make_guess game guess)
         = guesses_left game - 1)
    ∧ (guesses_left (indexed.make_guess game guess) ≠ guesses_left game →
       ¬ terminal game ∧ (guess ∉ guessed game) ∧ (guess ∉ letters game))
    ∧ (state (indexed.make_guess game guess) = "bad_guess" →
       (guess ∉ letters game) ∧ 1 < guesses_left game)).
  { unfold_indexed. unfold_replace.
    destruct (py_in_list (state game) ["won"; "lost"]) eqn:Hover.
    - apply py_in_list_over in Hover. fold (terminal game) in Hover.
      specialize (Hterm Hover). guess_count_leaf.
    - apply not_over_inv in Hover. specialize (Hlive Hover).
      split_tests; guess_count_leaf. }
  split; [| split].
  - unfold_nested. unfold_replace.
    destruct (py_in_list (state game) ["won"; "lost"]) eqn:Hover; cbn [negb].
    + apply py_in_list_over in Hover. fold (terminal game) in Hover.
      specialize (Hterm Hover). guess_count_leaf.
    + apply not_over_inv in Hover. specialize (Hlive Hover).
      split_tests; guess_count_leaf.
  - exact Hindexed.
  - exact Hindexed.
Qed.

Lemma guesses_left_bounded_witness :
  all_impls (λ make_guess,
    let game := mkGame "" ∅ {["a"]} 3 in
    0 ≤ guesses_left (make_guess game "b")
    ∧ (guesses_left (make_guess game "b") = guesses_left game
       ∨ guesses_left (make_guess game "b") = guesses_left game - 1)
    ∧ (guesses_left (make_guess game "b") ≠ guesses_left game →
       ¬ terminal game ∧ ("b" ∉ guessed game) ∧ ("b" ∉ letters game))
    ∧ (state (make_guess game "b") = "bad_guess" →
       ("b" ∉ letters game) ∧ 1 < guesses_left game)).
Proof.
  refine (guesses_left_bounded (mkGame "" ∅ {["a"]} 3) "b" _ _); simpl.
  - lia.
  - intros _. lia.
Defined.

(** * Further properties read off the code *)

(** ** Facts about the sample games *)

Lemma fresh_round_live : ¬ terminal fresh_round.
Proof. unfold terminal; simpl. intros [H | H]; discriminate H. Qed.

Lemma fresh_round_open (s : gset string) :
  "a" ∉ s → ¬ letters fresh_round ⊆ s.
Proof.
  intros Ha Hsub. apply Ha, Hsub. simpl.
  apply elem_of_union_l, elem_of_singleton. reflexivity.
Qed.

Lemma fresh_round_consistent : consistent fresh_round.
Proof.
  unfold consistent. split; [| split].
  - simpl. intros H. discriminate H.
  - simpl. intros H. discriminate H.
  - intros _. split; [simpl; lia |].
    apply fresh_round_open. apply not_elem_of_empty.
Qed.

(** ** Rules 5 and 6: good guess and bad guess *)

(** X1. A live game and a fresh letter of the word that does not complete
    it: each implementation returns [good_guess], adds the letter to
    [guessed] and leaves [letters] and [guesses_left] alone. *)
Theorem good_guess_rule (game : Game) (guess : string) :
  ¬ terminal game →
  guess ∉ guessed game →
  guess ∈ letters game →
  ¬ letters game ⊆ guessed game ∪ {[guess]} →
  all_impls (λ make_guess,
    make_guess game guess
    = mkGame "good_guess" (guessed game ∪ {[guess]}) (letters game)
        (guesses_left game)).
Proof.
  intros Hlive Hnew Hright Hopen.
  apply over_not_terminal in Hlive.
  split; [| split].
  - unfold_nested. rewrite Hlive; cbn [negb]. unfold_replace.
    split_tests; try contradiction. reflexivity.
  - unfold_indexed. rewrite Hlive. unfold_replace.
    split_tests; try contradiction; reflexivity.
  - unfold_indexed_fns. rewrite Hlive. unfold_replace.
    split_tests; try contradiction; reflexivity.
Qed.

Lemma good_guess_rule_witness :
  all_impls (λ make_guess,
    make_guess fresh_round "a"
    = mkGame "good_guess" (∅ ∪ {["a"]}) {["a"; "b"]} 3).
Proof.
  refine (good_guess_rule fresh_round "a" fresh_round_live _ _ _); simpl.
  - apply not_elem_of_empty.
  - apply elem_of_union_l, elem_of_singleton. reflexivity.
  - intros H. specialize (H "b").
    assert (Hb : "b" ∈ ({["a"; "b"]} : gset string)).
    { apply elem_of_union_r, elem_of_singleton. reflexivity. }
    apply H in Hb. apply elem_of_union in Hb. destruct Hb as [Hb | Hb].
    + exact (not_elem_of_empty _ Hb).
    + apply elem_of_singleton in Hb. discriminate Hb.
Defined.

(** X2. A live game, a fresh letter outside the word, the word still not
    covered, and a count other than 1: each implementation returns
    [bad_guess], adds the letter to [guessed] and takes one guess away.
    Nothing asks the count to be positive: from 0 or below it goes further
    down. *)
Theorem bad_guess_rule (game : Game) (guess : string) :
  ¬ terminal game →
  guess ∉ guessed game →
  guess ∉ letters game →
  ¬ letters game ⊆ guessed game ∪ {[guess]} →
  guesses_left game ≠ 1 →
  all_impls (λ make_guess,
    make_guess game guess
    = mkGame "bad_guess" (guessed game ∪ {[guess]}) (letters game)
        (guesses_left game - 1)).
Proof.
  intros Hlive Hnew Hwrong Hopen Hmany.
  apply over_not_terminal in Hlive.
  split; [| split].
  - unfold_nested. rewrite Hlive; cbn [negb]. unfold_replace.
    split_tests; try contradiction. reflexivity.
  - unfold_indexed. rewrite Hlive. unfold_replace.
    split_tests; try contradiction; reflexivity.
  - unfold_indexed_fns. rewrite Hlive. unfold_replace.
    split_tests; try contradiction; reflexivity.
Qed.

Lemma bad_guess_rule_witness :
  all_impls (λ make_guess,
    make_guess fresh_round "z"
    = mkGame "bad_guess" (∅ ∪ {["z"]}) {["a"; "b"]} (3 - 1)).
Proof.
  refine (bad_guess_rule fresh_round "z" fresh_round_live _ _ _ _); simpl.
  - apply not_elem_of_empty.
  - intros H. apply elem_of_union in H. destruct H as [H | H];
      apply elem_of_singleton in H; discriminate H.
  - apply (fresh_round_open (∅ ∪ {["z"]})). intros H.
    apply elem_of_union in H. destruct H as [H | H].
    + exact (not_elem_of_empty _ H).
    + apply elem_of_singleton in H. discriminate H.
  - lia.
Defined.

(** ** One step, seen from outside *)

(** The three ways a call can treat [guessed], gathered for the proofs
    below: a finished game is returned as it is, a repeated letter only
    rewrites the tag, and a live game always ends with the guess among
    its [guessed] letters. *)
Lemma step_facts (game : Game) (guess : string) :
  all_impls (λ make_guess,
    (terminal game → make_guess game guess = game)
    ∧ (¬ terminal game → guess ∈ guessed game →
       make_guess game guess = replace_state "already_guessed" game)
    ∧ (¬ terminal game →
       guessed (make_guess game guess) = guessed game ∪ {[guess]})).
Proof.
  assert (Hold : guess ∈ guessed game →
                 guessed game = guessed game ∪ {[guess]}).
  { intros Hin. apply set_eq. intros y.
    rewrite elem_of_union, elem_of_singleton. split.
    - intros Hy. left. exact Hy.
    - intros [Hy | ->]; assumption. }
  assert (Hindexed :
    (terminal game → indexed.make_guess game guess = game)
    ∧ (¬ terminal game → guess ∈ guessed game →
       indexed.make_guess game guess
       = replace_state "already_guessed" game)
    ∧ (¬ terminal game →
       guessed (indexed.make_guess game guess)
       = guessed game ∪ {[guess]})).
  { unfold_indexed. split; [| split].
    - intros Hterm. rewrite (over_terminal _ Hterm). reflexivity.
    - intros Hlive Hin. rewrite (over_not_terminal _ Hlive).
      rewrite (py_in_true _ _ Hin). reflexivity.
    - intros Hlive. rewrite (over_not_terminal _ Hlive).
      unfold_replace. split_tests; auto. }
  split; [| split]; [| exact Hindexed | exact Hindexed].
  unfold_nested. split; [| split].
  - intros Hterm. rewrite (over_terminal _ Hterm). reflexivity.
  - intros Hlive Hin. rewrite (over_not_terminal _ Hlive); cbn [negb].
    rewrite (py_in_true _ _ Hin). reflexivity.
  - intros Hlive. rewrite (over_not_terminal _ Hlive); cbn [negb].
    unfold_replace. split_tests; auto.
Qed.

(** X3. Whatever branch a live game takes, the guess ends up in [guessed]:
    the result's [guessed] is the input's with the guess added (which is
    the input's own set when the letter was there already). *)
Theorem live_guess_recorded (game : Game) (guess : string) :
  ¬ terminal game →
  all_impls (λ make_guess,
    guessed (make_guess game guess) = guessed game ∪ {[guess]}).
Proof.
  intros Hlive.
  destruct (step_facts game guess) as (Hn & Hi & Hf).
  split; [| split]; [apply Hn | apply Hi | apply Hf]; exact Hlive.
Qed.

Lemma live_guess_recorded_witness :
  all_impls (λ make_guess,
    guessed (make_guess fresh_round "z") = ∅ ∪ {["z"]}).
Proof.
  exact (live_guess_recorded fresh_round "z" fresh_round_live).
Defined.

(** X4. A letter of the word never costs a guess: when the guess is in
    [letters], the result has the input's [guesses_left], in every state
    and in each implementation. *)
Theorem right_letter_is_free (game : Game) (guess : string) :
  guess ∈ letters game →
  all_impls (λ make_guess,
    guesses_left (make_guess game guess) = guesses_left game).
Proof.
  intros Hright.
  split; [| split].
  - unfold_nested. unfold_replace. split_tests; try contradiction;
      reflexivity.
  - unfold_indexed. unfold_replace. split_tests; try contradiction;
      reflexivity.
  - unfold_indexed_fns. unfold_replace. split_tests; try contradiction;
      reflexivity.
Qed.

Lemma right_letter_is_free_witness :
  all_impls (λ make_guess,
    guesses_left (make_guess fresh_round "a") = 3).
Proof.
  refine (right_letter_is_free fresh_round "a" _); simpl.
  apply elem_of_union_l, elem_of_singleton. reflexivity.
Defined.

(** ** Guessing the same letter again *)

(** X5. When a guess leaves the game live, making the same guess again
    only rewrites the tag: the second result is the first with
    [state = already_guessed]. *)
Theorem same_guess_twice (game : Game) (guess : string) :
  all_impls (λ make_guess,
    ¬ terminal (make_guess game guess) →
    make_guess (make_guess game guess) guess
    = replace_state "already_guessed" (make_guess game guess)).
Proof.
  assert (Hstep : ∀ mg : Game → string → Game,
    (∀ g, (terminal g → mg g guess = g)
          ∧ (¬ terminal g → guess ∈ guessed g →
             mg g guess = replace_state "already_guessed" g)
          ∧ (¬ terminal g → guessed (mg g guess) = guessed g ∪ {[guess]})) →
    ¬ terminal (mg game guess) →
    mg (mg game guess) guess
    = replace_state "already_guessed" (mg game guess)).
  { intros mg Hmg Hlive'.
    destruct (Hmg game) as (Habs & _ & Hrec).
    destruct (Hmg (mg game guess)) as (_ & Hrep & _).
    apply Hrep; [exact Hlive' |].
    assert (Hlive : ¬ terminal game).
    { intros Hterm. apply Hlive'. rewrite (Habs Hterm). exact Hterm. }
    rewrite (Hrec Hlive).
    apply elem_of_union_r, elem_of_singleton. reflexivity. }
  split; [| split]; apply Hstep; intros g.
  - exact (proj1 (step_facts g guess)).
  - exact (proj1 (proj2 (step_facts g guess))).
  - exact (proj2 (proj2 (step_facts g guess))).
Qed.

Lemma same_guess_twice_witness :
  all_impls (λ make_guess,
    make_guess (make_guess fresh_round "a") "a"
    = replace_state "already_guessed" (make_guess fresh_round "a")).
Proof.
  destruct (same_guess_twice fresh_round "a") as (Hn & Hi & Hf).
  split; [| split]; [apply Hn | apply Hi | apply Hf].
  all: vm_compute; intros [H | H]; discriminate H.
Defined.

(** ** When a call ends the game *)

(** X6. The result is [won] exactly when the input was [won] already, or
    the game is live, the letter is fresh and [letters ⊆ guessed ∪ {guess}];
    [nested] asks in addition that the letter is in [letters]. *)
Theorem won_iff (game : Game) (guess : string) :
  (state (nested.make_guess game guess) = "won"
   ↔ state game = "won"
     ∨ (¬ terminal game ∧ (guess ∉ guessed game) ∧ guess ∈ letters game
        ∧ letters game ⊆ guessed game ∪ {[guess]}))
  ∧ (state (indexed.make_guess game guess) = "won"
     ↔ state game = "won"
       ∨ (¬ terminal game ∧ (guess ∉ guessed game)
          ∧ letters game ⊆ guessed game ∪ {[guess]}))
  ∧ (state (indexed_fns.make_guess game guess) = "won"
     ↔ state game = "won"
       ∨ (¬ terminal game ∧ (guess ∉ guessed game)
          ∧ letters game ⊆ guessed game ∪ {[guess]})).
Proof.
  split; [| split].
  - unfold_nested. unfold_replace.
    destruct (py_in_list (state game) ["won"; "lost"]) eqn:Hover; cbn [negb].
    + apply py_in_list_over in Hover. outcome_leaf.
    + apply not_over_inv in Hover. split_tests; outcome_leaf.
  - unfold_indexed. unfold_replace.
    destruct (py_in_list (state game) ["won"; "lost"]) eqn:Hover.
    + apply py_in_list_over in Hover. outcome_leaf.
    + apply not_over_inv in Hover. split_tests; outcome_leaf.
  - unfold_indexed_fns. unfold_replace.
    destruct (py_in_list (state game) ["won"; "lost"]) eqn:Hover.
    + apply py_in_list_over in Hover. outcome_leaf.
    + apply not_over_inv in Hover. split_tests; outcome_leaf.
Qed.

(** X7. The result is [lost] exactly when the input was [lost] already, or
    the game is live, the letter is fresh and outside [letters], and
    [guesses_left] is 1; the flat implementations ask in addition that
    [letters] is not included in [guessed ∪ {guess}]. A count of 0 or below
    never ends a live game. *)
Theorem lost_iff (game : Game) (guess : string) :
  (state (nested.make_guess game guess) = "lost"
   ↔ state game = "lost"
     ∨ (¬ terminal game ∧ (guess ∉ guessed game) ∧ (guess ∉ letters game)
        ∧ guesses_left game = 1))
  ∧ (state (indexed.make_guess game guess) = "lost"
     ↔ state game = "lost"
       ∨ (¬ terminal game ∧ (guess ∉ guessed game) ∧ (guess ∉ letters game)
          ∧ guesses_left game = 1
          ∧ ¬ letters game ⊆ guessed game ∪ {[guess]}))
  ∧ (state (indexed_fns.make_guess game guess) = "lost"
     ↔ state game = "lost"
       ∨ (¬ terminal game ∧ (guess ∉ guessed game) ∧ (guess ∉ letters game)
          ∧ guesses_left game = 1
          ∧ ¬ letters game ⊆ guessed game ∪ {[guess]})).
Proof.
  split; [| split].
  - unfold_nested. unfold_replace.
    destruct (py_in_list (state game) ["won"; "lost"]) eqn:Hover; cbn [negb].
    + apply py_in_list_over in Hover. outcome_leaf.
    + apply not_over_inv in Hover. split_tests; outcome_leaf.
  - unfold_indexed. unfold_replace.
    destruct (py_in_list (state game) ["won"; "lost"]) eqn:Hover.
    + apply py_in_list_over in Hover. outcome_leaf.
    + apply not_over_inv in Hover. split_tests; outcome_leaf.
  - unfold_indexed_fns. unfold_replace.
    destruct (py_in_list (state game) ["won"; "lost"]) eqn:Hover.
    + apply py_in_list_over in Hover. outcome_leaf.
    + apply not_over_inv in Hover. split_tests; outcome_leaf.
Qed.

(** ** Playing a sequence of guesses *)

(** A driver feeds the letters one at a time, each call taking the game
    the previous one returned: [fold_left make_guess guesses game]. *)

(** A property kept by one call is kept by any number of calls. *)
Lemma fold_invariant (mg : Game → string → Game) (P : Game → Prop) :
  (∀ g x, P g → P (mg g x)) →
  ∀ guesses g, P g → P (fold_left mg guesses g).
Proof.
  intros Hstep guesses.
  induction guesses as [| x rest IH]; intros g Hg; simpl.
  - exact Hg.
  - apply IH, Hstep, Hg.
Qed.

(** What one call can do to the fields, in any state. *)
Lemma step_frame (game : Game) (guess : string) :
  all_impls (λ make_guess,
    letters (make_guess game guess) = letters game
    ∧ guessed game ⊆ guessed (make_guess game guess)
    ∧ guessed (make_guess game guess) ⊆ guessed game ∪ {[guess]}
    ∧ guesses_left game - 1 ≤ guesses_left (make_guess game guess)
    ∧ guesses_left (make_guess game guess) ≤ guesses_left game).
Proof.
  assert (Hl : guessed game ⊆ guessed game ∪ {[guess]})
    by apply union_subseteq_l.
  assert (Hindexed :
    letters (indexed.make_guess game guess) = letters game
    ∧ guessed game ⊆ guessed (indexed.make_guess game guess)
    ∧ guessed (indexed.make_guess game guess) ⊆ guessed game ∪ {[guess]}
    ∧ guesses_left game - 1 ≤ guesses_left (indexed.make_guess game guess)
    ∧ guesses_left (indexed.make_guess game guess) ≤ guesses_left game).
  { unfold_indexed. unfold_replace.
    split_tests; repeat split; try lia; try reflexivity; assumption. }
  split; [| split]; [| exact Hindexed | exact Hindexed].
  unfold_nested. unfold_replace.
  split_tests; repeat split; try lia; try reflexivity; assumption.
Qed.

(** X8. A finished game goes through any sequence of guesses untouched. *)
Theorem play_after_the_end (game : Game) (guesses : list string) :
  terminal game →
  all_impls (λ make_guess, fold_left make_guess guesses game = game).
Proof.
  intros Hterm.
  assert (Hgen : ∀ mg : Game → string → Game,
    (∀ g x, terminal g → mg g x = g) →
    fold_left mg guesses game = game).
  { intros mg Habs.
    induction guesses as [| x rest IH]; simpl.
    - reflexivity.
    - rewrite (Habs game x Hterm). exact IH. }
  split; [| split]; apply Hgen; intros g x.
  - exact (proj1 (proj1 (step_facts g x))).
  - exact (proj1 (proj1 (proj2 (step_facts g x)))).
  - exact (proj1 (proj2 (proj2 (step_facts g x)))).
Qed.

Lemma play_after_the_end_witness :
  all_impls (λ make_guess,
    fold_left make_guess ["a"; "z"; "b"] (mkGame "won" {["a"]} {["a"]} 2)
    = mkGame "won" {["a"]} {["a"]} 2).
Proof.
  refine (play_after_the_end (mkGame "won" {["a"]} {["a"]} 2)
            ["a"; "z"; "b"] _).
  left. reflexivity.
Defined.

(** X9. Along any sequence of guesses, from any game: [letters] stays the
    same; [guessed] keeps what it had and gains nothing but letters of the
    sequence; [guesses_left] never rises and falls by at most the number
    of guesses made. *)
Theorem play_frame (game : Game) (guesses : list string) :
  all_impls (λ make_guess,
    letters (fold_left make_guess guesses game) = letters game
    ∧ guessed game ⊆ guessed (fold_left make_guess guesses game)
    ∧ guessed (fold_left make_guess guesses game)
      ⊆ guessed game ∪ list_to_set guesses
    ∧ guesses_left game - Z.of_nat (length guesses)
      ≤ guesses_left (fold_left make_guess guesses game)
    ∧ guesses_left (fold_left make_guess guesses game)
      ≤ guesses_left game).
Proof.
  assert (Hgen : ∀ mg : Game → string → Game,
    (∀ g x,
       letters (mg g x) = letters g
       ∧ guessed g ⊆ guessed (mg g x)
       ∧ guessed (mg g x) ⊆ guessed g ∪ {[x]}
       ∧ guesses_left g - 1 ≤ guesses_left (mg g x)
       ∧ guesses_left (mg g x) ≤ guesses_left g) →
    ∀ gs g,
      letters (fold_left mg gs g) = letters g
      ∧ guessed g ⊆ guessed (fold_left mg gs g)
      ∧ guessed (fold_left mg gs g) ⊆ guessed g ∪ list_to_set gs
      ∧ guesses_left g - Z.of_nat (length gs)
        ≤ guesses_left (fold_left mg gs g)
      ∧ guesses_left (fold_left mg gs g) ≤ guesses_left g).
  { intros mg Hstep gs.
    induction gs as [| x rest IH]; intros g.
    - simpl. repeat split; try lia; try reflexivity.
      apply union_subseteq_l.
    - destruct (Hstep g x) as (Hl & Hsub & Hsup & Hlo & Hhi).
      destruct (IH (mg g x)) as (Hl' & Hsub' & Hsup' & Hlo' & Hhi').
      cbn [fold_left length list_to_set].
      rewrite Nat2Z.inj_succ.
      split; [congruence |].
      split; [etrans; eassumption |].
      split; [| lia].
      intros y Hy. apply Hsup' in Hy.
      apply elem_of_union in Hy. destruct Hy as [Hy | Hy].
      + apply Hsup in Hy. apply elem_of_union in Hy.
        destruct Hy as [Hy | Hy].
        * apply elem_of_union_l, Hy.
        * apply elem_of_union_r, elem_of_union_l, Hy.
      + apply elem_of_union_r, elem_of_union_r, Hy. }
  split; [| split]; apply Hgen; intros g x.
  - exact (proj1 (step_frame g x)).
  - exact (proj1 (proj2 (step_frame g x))).
  - exact (proj2 (proj2 (step_frame g x))).
Qed.

(** ** Games a driver can reach *)

(** A letter outside the word does not help cover it. *)
Lemma covered_without (x : string) (word seen : gset string) :
  x ∉ word → word ⊆ seen ∪ {[x]} → word ⊆ seen.
Proof.
  intros Hout Hsub y Hy. pose proof (Hsub y Hy) as Hy'.
  apply elem_of_union in Hy'. destruct Hy' as [Hy' | Hy'].
  - exact Hy'.
  - apply elem_of_singleton in Hy'. subst y. contradiction.
Qed.

(** One call keeps a consistent game consistent. *)
Lemma consistent_step (game : Game) (guess : string) :
  consistent game →
  all_impls (λ make_guess, consistent (make_guess game guess)).
Proof.
  intros (Hwon & Hlost & Hlive).
  assert (Hindexed : consistent (indexed.make_guess game guess)).
  { unfold_indexed.
    destruct (py_in_list (state game) ["won"; "lost"]) eqn:Hover.
    - repeat split; tauto.
    - apply not_over_inv in Hover. destruct (Hlive Hover) as [Hpos Hopen].
      unfold consistent, terminal. unfold_replace.
      split_tests; repeat split; intros;
        try discriminate; try lia; try assumption; try tauto. }
  split; [| split]; [| exact Hindexed | exact Hindexed].
  unfold_nested.
  destruct (py_in_list (state game) ["won"; "lost"]) eqn:Hover; cbn [negb].
  - repeat split; tauto.
  - apply not_over_inv in Hover. destruct (Hlive Hover) as [Hpos Hopen].
    unfold consistent, terminal. unfold_replace.
    split_tests; repeat split; intros;
      try discriminate; try lia; try assumption; try tauto.
    all: intros Hcov; apply Hopen;
      apply (covered_without guess); assumption.
Qed.

(** On a consistent game the nested implementation takes the same branch
    as the flat one. *)
Lemma agree_step (game : Game) (guess : string) :
  consistent game →
  nested.make_guess game guess = indexed.make_guess game guess.
Proof.
  intros (_ & _ & Hlive).
  unfold_nested. unfold_indexed.
  destruct (py_in_list (state game) ["won"; "lost"]) eqn:Hover; cbn [negb].
  - reflexivity.
  - apply not_over_inv in Hover. destruct (Hlive Hover) as [_ Hopen].
    unfold_replace. split_tests; try reflexivity; try contradiction.
    all: exfalso; apply Hopen; apply (covered_without guess); assumption.
Qed.

(** What the fields of a consistent game say about each other. *)
Lemma consistent_reading (game : Game) :
  consistent game →
  0 ≤ guesses_left game
  ∧ (state game = "won" ↔ letters game ⊆ guessed game)
  ∧ (state game = "lost" ↔ guesses_left game = 0).
Proof.
  intros (Hwon & Hlost & Hlive). unfold terminal in Hlive.
  destruct (decide (state game = "won")) as [Ew | Ew];
    destruct (decide (state game = "lost")) as [El | El].
  - rewrite Ew in El. discriminate El.
  - destruct (Hwon Ew) as [Hpos Hcov].
    repeat split; intros; try lia; try assumption; try contradiction.
  - destruct (Hlost El) as [Hzero Hopen].
    repeat split; intros; try lia; try assumption; try contradiction.
  - assert (Hl : ¬ (state game = "won" ∨ state game = "lost")) by tauto.
    destruct (Hlive Hl) as [Hpos Hopen].
    repeat split; intros; try lia; try contradiction.
Qed.

(** X10. From a consistent game, after any sequence of guesses, in each
    implementation: [guesses_left] is not negative, the state is [won]
    exactly when [letters ⊆ guessed], and it is [lost] exactly when
    [guesses_left] is 0. *)
Theorem play_outcome (game : Game) (guesses : list string) :
  consistent game →
  all_impls (λ make_guess,
    0 ≤ guesses_left (fold_left make_guess guesses game)
    ∧ (state (fold_left make_guess guesses game) = "won"
       ↔ letters (fold_left make_guess guesses game)
         ⊆ guessed (fold_left make_guess guesses game))
    ∧ (state (fold_left make_guess guesses game) = "lost"
       ↔ guesses_left (fold_left make_guess guesses game) = 0)).
Proof.
  intros Hgame.
  split; [| split]; apply consistent_reading.
  all: apply (fold_invariant _ consistent); [| exact Hgame].
  - intros g x Hg. exact (proj1 (consistent_step g x Hg)).
  - intros g x Hg. exact (proj1 (proj2 (consistent_step g x Hg))).
  - intros g x Hg. exact (proj2 (proj2 (consistent_step g x Hg))).
Qed.

Lemma play_outcome_witness :
  all_impls (λ make_guess,
    0 ≤ guesses_left (fold_left make_guess ["a"; "z"; "a"; "b"] fresh_round)
    ∧ (state (fold_left make_guess ["a"; "z"; "a"; "b"] fresh_round) = "won"
       ↔ letters (fold_left make_guess ["a"; "z"; "a"; "b"] fresh_round)
         ⊆ guessed (fold_left make_guess ["a"; "z"; "a"; "b"] fresh_round))
    ∧ (state (fold_left make_guess ["a"; "z"; "a"; "b"] fresh_round) = "lost"
       ↔ guesses_left
           (fold_left make_guess ["a"; "z"; "a"; "b"] fresh_round) = 0)).
Proof.
  exact (play_outcome fresh_round ["a"; "z"; "a"; "b"]
           fresh_round_consistent).
Defined.

(** X11. From a consistent game the three implementations return the same
    Game after any sequence of guesses. *)
Theorem play_agree (game : Game) (guesses : list string) :
  consistent game →
  fold_left nested.make_guess guesses game
  = fold_left indexed.make_guess guesses game
  ∧ fold_left indexed_fns.make_guess guesses game
    = fold_left indexed.make_guess guesses game.
Proof.
  intros Hgame. split; [| reflexivity].
  revert game Hgame.
  induction guesses as [| x rest IH]; intros game Hgame; simpl.
  - reflexivity.
  - rewrite (agree_step game x Hgame). apply IH.
    exact (proj1 (proj2 (consistent_step game x Hgame))).
Qed.

Lemma play_agree_witness :
  fold_left nested.make_guess ["z"; "a"; "q"; "y"] fresh_round
  = fold_left indexed.make_guess ["z"; "a"; "q"; "y"] fresh_round
  ∧ fold_left indexed_fns.make_guess ["z"; "a"; "q"; "y"] fresh_round
    = fold_left indexed.make_guess ["z"; "a"; "q"; "y"] fresh_round.
Proof.
  exact (play_agree fresh_round ["z"; "a"; "q"; "y"] fresh_round_consistent).
Defined.

(** Witness for the nested winning rule: the last letter of the word. *)
Lemma winning_guess_nested_witness :
  nested.make_guess (mkGame "" ∅ {["a"]} 1) "a"
  = mkGame "won" (∅ ∪ {["a"]}) {["a"]} 1.
Proof.
  refine (winning_guess_nested (mkGame "" ∅ {["a"]} 1) "a" _ _ _ _); simpl.
  - unfold terminal; simpl. intros [H | H]; discriminate H.
  - apply not_elem_of_empty.
  - apply elem_of_singleton. reflexivity.
  - apply union_subseteq_r.
Defined.
